(** * logger.go of github.com/binary4cat/logger, embedded in Rocq

    The package keeps three package-level variables ([logger], [fileWirtor],
    [stdWirtor]); every exported function reads or replaces them.  The
    embedding threads them through a [State] record, together with the two
    kinds of heap objects the package allocates (lumberjack loggers and the
    variables captured by hook closures) and the trace of calls that leave
    the package (writes on a writer, invocations of a user hook). *)

From Stdlib Require Import ZArith Ascii String.
From stdpp Require Import base list strings pretty.

Set Warnings "-register-all".

Local Open Scope Z_scope.

(** ** Levels (logger.go, lines 15-40) *)

(** [type Level int8]. *)
Definition Level : Type := Z.

(** The constant block repeats the expression [iota - 1] on every line. *)
Definition DebugLevel : Level := 0 - 1.
Definition InfoLevel : Level := 1 - 1.
Definition WarnLevel : Level := 2 - 1.
Definition ErrorLevel : Level := 3 - 1.
Definition DPanicLevel : Level := 4 - 1.
Definition PanicLevel : Level := 5 - 1.
Definition FatalLevel : Level := 6 - 1.

Definition _minLevel : Level := DebugLevel.
Definition _maxLevel : Level := FatalLevel.

(** ** Options and LogInfo (lines 42-61) *)

Record Options := {
  NotStdout : bool;
  OptLevel : Level;        (* field [Level] *)
  Filename : string;
  MaxSize : Z;
  MaxBackups : Z;
  MaxAge : Z;
  Compress : bool
}.

(** The zero value of [Options]: what a composite literal leaves in the
    fields it does not mention. *)
Definition zeroOptions : Options :=
  {| NotStdout := false; OptLevel := 0; Filename := ""; MaxSize := 0;
     MaxBackups := 0; MaxAge := 0; Compress := false |}.

Record LogInfo := {
  info_Level : Level;      (* field [Level] *)
  info_Time : Z;            (* field [Time], a time.Time *)
  info_LoggerName : string;
  info_Message : string;
  info_Stack : string;
  info_File : string;
  info_Line : Z
}.

(** ** The two libraries the package is built on *)

Module lumberjack.
(** The fields of [lumberjack.Logger] that [getLogWriter] fills in. *)
Record Logger := {
  Filename : string;
  MaxSize : Z;
  MaxBackups : Z;
  MaxAge : Z;
  Compress : bool
}.
End lumberjack.

(** A [zapcore.WriteSyncer] of this package is either [os.Stdout] (wrapped by
    [zapcore.AddSync]) or the wrapper around a pointer to a lumberjack logger;
    the pointer is an index into the heap of lumberjack loggers. *)
Inductive WriteSyncer :=
| Stdout
| Lumberjack (p : nat).

Global Instance WriteSyncer_eq_dec : EqDecision WriteSyncer.
Proof. solve_decision. Defined.

(** The function literal of [hooksHandler] (line 121).  It has one free
    variable, [hook]; a Go closure holds the variable, not its value, so the
    closure is the address of that variable. *)
Record closure := Closure { captured : nat }.

Module zapcore.

Record EntryCaller := {
  File : string;
  Line : Z
}.

Record Entry := {
  EntryLevel : Level;    (* field [Level] *)
  Time : Z;
  LoggerName : string;
  Message : string;
  Stack : string;
  Caller : EntryCaller
}.

(** Modelled from the spec: zapcore's level enabler is not under src/.
    Section 4.3: "accept(level) -> bool = level >= configured minimum
    (using Level's total order)". *)
Definition Enabled (minimum lvl : Level) : bool := minimum <=? lvl.

(** The cores [InitLogger] builds: [NewCore] over one writer, [NewTee]
    over several cores, and the hook wrapper that [zap.Hooks] puts around
    the logger's core. *)
Inductive Core :=
| ioCore (out : WriteSyncer) (enab : Level)
| multiCore (cs : list Core)
| hooked (c : Core) (funcs : list closure).

(** What an accepted entry is handed to, in order. *)
Inductive Target :=
| ToWriter (w : WriteSyncer)
| ToHooks (funcs : list closure).

(** Modelled from the spec: zapcore's [Check] methods are not under src/.
    Section 4.3: an entry that is not accepted causes "no write, no hook
    invocation"; an accepted one is written "via Sink Set, then" the hook
    pipeline is invoked.  Section 4.2: the sink set fans out "to every
    configured writer". *)
Fixpoint Check (c : Core) (ent : Entry) : list Target :=
  match c with
  | ioCore out enab =>
      if Enabled enab (EntryLevel ent) then [ToWriter out] else []
  | multiCore cs => flat_map (fun c' => Check c' ent) cs
  | hooked c' funcs =>
      match Check c' ent with
      | [] => []
      | ts => ts ++ [ToHooks funcs]
      end
  end.

(** [zapcore.NewCore(enc, ws, enab)]; the encoder is the same in every
    core of this package and is kept outside the core. *)
Definition NewCore (ws : WriteSyncer) (enab : Level) : Core := ioCore ws enab.

(** [zapcore.NewTee(cores...)]. *)
Definition NewTee (cores : list Core) : Core := multiCore cores.

End zapcore.

Module zap.
(** A [*zap.Logger] / [*zap.SugaredLogger], as far as this package
    configures it: its core. *)
Record Logger := { core : zapcore.Core }.

Definition New (c : zapcore.Core) : Logger := {| core := c |}.

(** [zap.Hooks(funcs...)] applied through [WithOptions]: the functions are
    kept in the order given (spec 4.4: "insertion order preserved"). *)
Definition Hooks (funcs : list closure) (l : Logger) : Logger :=
  {| core := zapcore.hooked (core l) funcs |}.
End zap.

(** ** The Go language version (go.mod) *)

(** go.mod: [go 1.19]. *)
Definition go_minor : Z := 19.

(** Up to Go 1.21 the variables of a [for ... range] clause are declared
    once for the whole loop; from Go 1.22 on, once per iteration.  The
    language version of a module is the one of its go.mod. *)
Inductive LoopVar := PerLoop | PerIteration.

Definition loopvar_of_go (minor : Z) : LoopVar :=
  if minor <? 22 then PerLoop else PerIteration.

(** ** The package *)

Definition newline : string := String "010"%char "".

(** What the clock and [runtime.Caller] give at a logging call. *)
Record CallSite := { now : Z; file : string; line : Z }.

(** ** A runtime to run the definitions on

    Operands that are Go strings or integers, with the formatting [fmt]
    gives them, and hooks known by their names. *)
Module Sample.

Inductive Arg :=
| AString (s : string)
| AInt (n : Z).

Definition Hook : Type := string.

(** [%v]: a string as it is, an integer in decimal. *)
Definition fmt_v (a : Arg) : string :=
  match a with
  | AString s => s
  | AInt n => pretty n
  end.

Definition is_string (a : Arg) : bool :=
  match a with AString _ => true | AInt _ => false end.

(** [fmt.Sprint]: a space between two operands when neither is a string. *)
Fixpoint Sprint (args : list Arg) : string :=
  match args with
  | [] => ""
  | [a] => fmt_v a
  | a :: (b :: _) as rest =>
      fmt_v a +:+ (if is_string a || is_string b then "" else " ")
      +:+ Sprint rest
  end.

(** [fmt.Sprintf], for the verbs that print an operand in its default form
    ([%s] of a string, [%d] of an integer, [%v]) and for [%%]. *)
Fixpoint Sprintf (template : string) (args : list Arg) : string :=
  match template with
  | "" => ""
  | String "%" (String c rest) =>
      if Ascii.eqb c "%" then String "%" (Sprintf rest args)
      else
        match args with
        | a :: args' => fmt_v a +:+ Sprintf rest args'
        | [] => "%!" +:+ String c "(MISSING)" +:+ Sprintf rest []
        end
  | String c rest => String c (Sprintf rest args)
  end.

Definition level_name (l : Level) : string :=
  if l =? DebugLevel then "DEBUG"
  else if l =? InfoLevel then "INFO"
  else if l =? WarnLevel then "WARN"
  else if l =? ErrorLevel then "ERROR"
  else if l =? DPanicLevel then "DPANIC"
  else if l =? PanicLevel then "PANIC"
  else if l =? FatalLevel then "FATAL"
  else "LEVEL(" +:+ pretty l +:+ ")".

Definition tab : string := String "009"%char "".

(** A console line: time, capital level name, origin and message, separated
    by tabs.  The time is printed as a number; the fields are left out. *)
Definition encode (e : zapcore.Entry) (fields : list Arg) : string :=
  pretty (zapcore.Time e) +:+ tab +:+ level_name (zapcore.EntryLevel e)
  +:+ tab +:+ zapcore.File (zapcore.Caller e) +:+ ":"
  +:+ pretty (zapcore.Line (zapcore.Caller e))
  +:+ tab +:+ zapcore.Message e +:+ newline.

(** The options of [TestInitLogger]. *)
Definition test_options : Options :=
  {| NotStdout := NotStdout zeroOptions;
     OptLevel := DebugLevel;
     Filename := "./log.log";
     MaxSize := 10;
     MaxBackups := 10;
     MaxAge := 2;
     Compress := false |}.

Definition here : CallSite := {| now := 1700000000; file := "main.go"; line := 30 |}.

End Sample.

Section Package.

(** The values of type [interface{}] passed to the logging functions, and the
    user hooks of type [func(LogInfo) error]. *)
Context {Arg Hook : Type}.

(** The formatting of package [fmt]: the default format of one operand
    ([%v]), [fmt.Sprint] and [fmt.Sprintf]. *)
Variable fmt_v : Arg -> string.
Variable Sprint : list Arg -> string.
Variable Sprintf : string -> list Arg -> string.

(** The console encoder of [getEncoder] (lines 148-153) applied to an entry
    and its fields. *)
Variable encode : zapcore.Entry -> list Arg -> string.

(** [fmt.Sprintln] of the Go standard library: the default formats of the
    operands, a space between every two operands, a newline at the end. *)
Definition Sprintln (args : list Arg) : string :=
  String.concat " " (map fmt_v args) +:+ newline.

(** A call that leaves the package. *)
Inductive Event :=
| Write (w : WriteSyncer) (p : string)
| CallHook (hook : Hook) (info : LogInfo).

Record State := {
  logger : option zap.Logger;            (* nil is None *)
  fileWirtor : option WriteSyncer;       (* pointer to the writer; nil is None *)
  stdWirtor : option WriteSyncer;
  loggers : list lumberjack.Logger;      (* heap: the lumberjack loggers made so far *)
  vars : list (option Hook);             (* heap: the captured [hook] variables *)
  trace : list Event
}.

(** The state before [init] runs: every package variable is nil. *)
Definition zeroState : State :=
  {| logger := None; fileWirtor := None; stdWirtor := None;
     loggers := []; vars := []; trace := [] |}.

Definition set_logger (l : option zap.Logger) (st : State) : State :=
  {| logger := l; fileWirtor := fileWirtor st; stdWirtor := stdWirtor st;
     loggers := loggers st; vars := vars st; trace := trace st |}.

Definition set_fileWirtor (w : option WriteSyncer) (st : State) : State :=
  {| logger := logger st; fileWirtor := w; stdWirtor := stdWirtor st;
     loggers := loggers st; vars := vars st; trace := trace st |}.

Definition set_stdWirtor (w : option WriteSyncer) (st : State) : State :=
  {| logger := logger st; fileWirtor := fileWirtor st; stdWirtor := w;
     loggers := loggers st; vars := vars st; trace := trace st |}.

Definition set_loggers (h : list lumberjack.Logger) (st : State) : State :=
  {| logger := logger st; fileWirtor := fileWirtor st; stdWirtor := stdWirtor st;
     loggers := h; vars := vars st; trace := trace st |}.

Definition set_vars (v : list (option Hook)) (st : State) : State :=
  {| logger := logger st; fileWirtor := fileWirtor st; stdWirtor := stdWirtor st;
     loggers := loggers st; vars := v; trace := trace st |}.

Definition emit (e : Event) (st : State) : State :=
  {| logger := logger st; fileWirtor := fileWirtor st; stdWirtor := stdWirtor st;
     loggers := loggers st; vars := vars st; trace := trace st ++ [e] |}.

(** [getLogWriter] (lines 155-165): a new lumberjack logger with the five
    fields copied from the options, wrapped by [zapcore.AddSync]. *)
Definition getLogWriter (opt : Options) (st : State) : WriteSyncer * State :=
  let lumberJackLogger :=
    {| lumberjack.Filename := Filename opt;
       lumberjack.MaxSize := MaxSize opt;
       lumberjack.MaxBackups := MaxBackups opt;
       lumberjack.MaxAge := MaxAge opt;
       lumberjack.Compress := Compress opt |} in
  (Lumberjack (length (loggers st)),
   set_loggers (loggers st ++ [lumberJackLogger]) st).

(** The loop of [hooksHandler] (lines 120-133).  [v] is the address of the
    variable [hook] of the current iteration; the literal appended to
    [resHooks] captures that variable. *)
Fixpoint range_hooks (sem : LoopVar) (v : nat) (hooks : list Hook)
    (resHooks : list closure) (cells : list (option Hook))
    : list closure * list (option Hook) :=
  match hooks with
  | [] => (resHooks, cells)
  | h :: rest =>
      match sem with
      | PerLoop =>
          range_hooks sem v rest (resHooks ++ [Closure v]) (<[v := Some h]> cells)
      | PerIteration =>
          range_hooks sem (length cells) rest
            (resHooks ++ [Closure (length cells)]) (cells ++ [Some h])
      end
  end.

(** [hooksHandler] under a given loop-variable rule.  [resHooks] starts as
    the nil slice; under [PerLoop] the one variable [hook] is declared when
    the loop is entered. *)
Definition hooksHandler_with (sem : LoopVar) (hooks : list Hook)
    (cells : list (option Hook)) : list closure * list (option Hook) :=
  match sem with
  | PerLoop => range_hooks sem (length cells) hooks [] (cells ++ [None])
  | PerIteration => range_hooks sem 0 hooks [] cells
  end.

(** [hooksHandler] (lines 118-135) as this module compiles it. *)
Definition hooksHandler : list Hook -> list (option Hook)
    -> list closure * list (option Hook) :=
  hooksHandler_with (loopvar_of_go go_minor).

(** [InitLogger] parametrised by the loop-variable rule (lines 85-107). *)
Definition InitLogger_with (sem : LoopVar) (opt : Options) (hooks : list Hook)
    (st : State) : State :=
  let '(fw, st) := getLogWriter opt st in
  let st := set_fileWirtor (Some fw) st in
  let '(treeCore, st) :=
    if NotStdout opt && negb (String.eqb (Filename opt) "") then
      (zapcore.NewCore fw (OptLevel opt), st)
    else if String.eqb (Filename opt) "" && negb (NotStdout opt) then
      let sw := Stdout in
      let st := set_stdWirtor (Some sw) st in
      (zapcore.NewCore sw (OptLevel opt), st)
    else
      let sw := Stdout in
      let st := set_stdWirtor (Some sw) st in
      let stdoutCore := zapcore.NewCore sw (OptLevel opt) in
      let fileCore := zapcore.NewCore fw (OptLevel opt) in
      (zapcore.NewTee [stdoutCore; fileCore], st) in
  let '(resHooks, cells) := hooksHandler_with sem hooks (vars st) in
  let st := set_vars cells st in
  let zl := zap.Hooks resHooks (zap.New treeCore) in
  set_logger (Some zl) st.

(** [InitLogger] as this module compiles it. *)
Definition InitLogger : Options -> list Hook -> State -> State :=
  InitLogger_with (loopvar_of_go go_minor).

(** [init] (lines 72-83). *)
Definition init (st : State) : State :=
  InitLogger
    {| NotStdout := false; OptLevel := DebugLevel; Filename := "";
       MaxSize := 0; MaxBackups := 0; MaxAge := 0; Compress := false |}
    [] st.

(** [GetLogWirter] (lines 110-115).  The outer [None] is the run-time panic
    of dereferencing a nil [fileWirtor]; otherwise the pair is the returned
    writer and error, nil being [None]. *)
Definition GetLogWirter (st : State)
    : option (option WriteSyncer * option string) :=
  match logger st with
  | None => Some (None, Some "请初始化日志组件后调用")
  | Some _ =>
      match fileWirtor st with
      | Some w => Some (Some w, None)
      | None => None
      end
  end.

(** [GetDefault] (lines 138-146): a literal that sets four fields to
    constants and [Filename] to the argument. *)
Definition GetDefault (filename : string) : Options :=
  {| NotStdout := NotStdout zeroOptions;
     OptLevel := OptLevel zeroOptions;
     Filename := filename;
     MaxSize := 100;
     MaxBackups := 10;
     MaxAge := 30;
     Compress := false |}.

(** The closure body (lines 121-131): the fields of the entry are copied
    into a [LogInfo]. *)
Definition toLogInfo (entity : zapcore.Entry) : LogInfo :=
  {| info_Level := zapcore.EntryLevel entity;
     info_Time := zapcore.Time entity;
     info_LoggerName := zapcore.LoggerName entity;
     info_Message := zapcore.Message entity;
     info_Stack := zapcore.Stack entity;
     info_File := zapcore.File (zapcore.Caller entity);
     info_Line := zapcore.Line (zapcore.Caller entity) |}.

(** Calling a closure of [hooksHandler]: [hook] is read from the captured
    variable when the closure runs, and called.  [None] is the call of a
    nil function value. *)
Definition call_closure (f : closure) (entity : zapcore.Entry) (st : State)
    : option State :=
  match vars st !! captured f with
  | Some (Some hook) => Some (emit (CallHook hook (toLogInfo entity)) st)
  | _ => None
  end.

(** Modelled from the spec: zap's hook dispatch is not under src/.
    Section 4.4: "notify(LogEntry) invokes every hook in registration
    order"; a failing hook "does NOT stop subsequent hooks". *)
Fixpoint notify (funcs : list closure) (entity : zapcore.Entry) (st : State)
    : option State :=
  match funcs with
  | [] => Some st
  | f :: rest => st' ← call_closure f entity st; notify rest entity st'
  end.

(** Modelled from the spec: zap's write of a checked entry is not under
    src/.  Section 4.3: the accepted entry is encoded and written to the
    sinks, then the hooks are notified "regardless of write outcome". *)
Fixpoint deliver (ts : list zapcore.Target) (entity : zapcore.Entry)
    (fields : list Arg) (st : State) : option State :=
  match ts with
  | [] => Some st
  | zapcore.ToWriter w :: rest =>
      deliver rest entity fields (emit (Write w (encode entity fields)) st)
  | zapcore.ToHooks funcs :: rest =>
      st' ← notify funcs entity st; deliver rest entity fields st'
  end.

(** Modelled from the spec: how zap fills in an entry is not under src/.
    Section 3: a LogEntry is the record "{level, timestamp, logger name,
    message, optional stack text, origin file, origin line}", "created once
    per log call".  The logger of this package has no name and records no
    stack. *)
Definition new_entry (lvl : Level) (msg : string) (site : CallSite)
    : zapcore.Entry :=
  {| zapcore.EntryLevel := lvl;
     zapcore.Time := now site;
     zapcore.LoggerName := "";
     zapcore.Message := msg;
     zapcore.Stack := "";
     zapcore.Caller :=
       {| zapcore.File := file site; zapcore.Line := line site |} |}.

(** Modelled from the spec: the logging method of [*zap.SugaredLogger] is
    not under src/.  Section 4.3: "emit(LogEntry)": the entry is filtered
    and, if accepted, written and shown to the hooks.  [None] is the
    run-time panic of calling a method of a nil logger. *)
Definition log (lvl : Level) (msg : string) (fields : list Arg)
    (site : CallSite) (st : State) : option State :=
  match logger st with
  | None => None
  | Some l =>
      let entity := new_entry lvl msg site in
      deliver (zapcore.Check (zap.core l) entity) entity fields st
  end.

(** The emission functions (lines 167-283). *)
Definition Debug (args : list Arg) := log DebugLevel (Sprint args) [].
Definition Info (args : list Arg) := log InfoLevel (Sprint args) [].
Definition Warn (args : list Arg) := log WarnLevel (Sprint args) [].
Definition Error (args : list Arg) := log ErrorLevel (Sprint args) [].
Definition DPanic (args : list Arg) := log DPanicLevel (Sprint args) [].
Definition Panic (args : list Arg) := log PanicLevel (Sprint args) [].
Definition Fatal (args : list Arg) := log FatalLevel (Sprint args) [].

Definition Debugf (template : string) (args : list Arg) :=
  log DebugLevel (Sprintf template args) [].
Definition Infof (template : string) (args : list Arg) :=
  log InfoLevel (Sprintf template args) [].
Definition Warnf (template : string) (args : list Arg) :=
  log WarnLevel (Sprintf template args) [].
Definition Errorf (template : string) (args : list Arg) :=
  log ErrorLevel (Sprintf template args) [].
Definition DPanicf (template : string) (args : list Arg) :=
  log DPanicLevel (Sprintf template args) [].
Definition Panicf (template : string) (args : list Arg) :=
  log PanicLevel (Sprintf template args) [].
Definition Fatalf (template : string) (args : list Arg) :=
  log FatalLevel (Sprintf template args) [].

Definition Debugw (msg : string) (keysAndValues : list Arg) :=
  log DebugLevel msg keysAndValues.
Definition Infow (msg : string) (keysAndValues : list Arg) :=
  log InfoLevel msg keysAndValues.
Definition Warnw (msg : string) (keysAndValues : list Arg) :=
  log WarnLevel msg keysAndValues.
Definition Errorw (msg : string) (keysAndValues : list Arg) :=
  log ErrorLevel msg keysAndValues.
Definition DPanicw (msg : string) (keysAndValues : list Arg) :=
  log DPanicLevel msg keysAndValues.
Definition Panicw (msg : string) (keysAndValues : list Arg) :=
  log PanicLevel msg keysAndValues.
Definition Fatalw (msg : string) (keysAndValues : list Arg) :=
  log FatalLevel msg keysAndValues.

(** [Pure] (lines 286-295). *)
Definition Pure (args : list Arg) (st : State) : State :=
  let st :=
    match fileWirtor st with
    | Some fw => emit (Write fw (Sprintln args)) st
    | None => st
    end in
  match stdWirtor st with
  | Some sw => emit (Write sw (Sprintln args)) st
  | None => st
  end.

(** [Puref] (lines 298-307). *)
Definition Puref (msg : string) (args : list Arg) (st : State) : State :=
  let st :=
    match fileWirtor st with
    | Some fw => emit (Write fw (Sprintf msg args +:+ newline)) st
    | None => st
    end in
  match stdWirtor st with
  | Some sw => emit (Write sw (Sprintf msg args +:+ newline)) st
  | None => st
  end.

(** ** Programs over the package's API *)

Inductive Severity :=
| SDebug | SInfo | SWarn | SError | SDPanic | SPanic | SFatal.

(** The three families: [X(args...)], [Xf(template, args...)] and
    [Xw(msg, keysAndValues...)]. *)
Inductive Form :=
| Plain (args : list Arg)
| Templated (template : string) (args : list Arg)
| Keyed (msg : string) (keysAndValues : list Arg).

Definition emission (s : Severity) (f : Form)
    : CallSite -> State -> option State :=
  match f, s with
  | Plain a, SDebug => Debug a
  | Plain a, SInfo => Info a
  | Plain a, SWarn => Warn a
  | Plain a, SError => Error a
  | Plain a, SDPanic => DPanic a
  | Plain a, SPanic => Panic a
  | Plain a, SFatal => Fatal a
  | Templated t a, SDebug => Debugf t a
  | Templated t a, SInfo => Infof t a
  | Templated t a, SWarn => Warnf t a
  | Templated t a, SError => Errorf t a
  | Templated t a, SDPanic => DPanicf t a
  | Templated t a, SPanic => Panicf t a
  | Templated t a, SFatal => Fatalf t a
  | Keyed m kv, SDebug => Debugw m kv
  | Keyed m kv, SInfo => Infow m kv
  | Keyed m kv, SWarn => Warnw m kv
  | Keyed m kv, SError => Errorw m kv
  | Keyed m kv, SDPanic => DPanicw m kv
  | Keyed m kv, SPanic => Panicw m kv
  | Keyed m kv, SFatal => Fatalw m kv
  end.

(** One call of an exported function that touches the package state.  A
    program that goes on after a [Panic] or [Fatal] call is included (a
    recovered panic); the properties below hold of the larger set. *)
Inductive Call :=
| CallInitLogger (opt : Options) (hooks : list Hook)
| CallGetLogWirter
| CallEmission (s : Severity) (f : Form) (site : CallSite)
| CallPure (args : list Arg)
| CallPuref (msg : string) (args : list Arg).

(** [None] is a run-time panic on a nil pointer. *)
Definition exec (c : Call) (st : State) : option State :=
  match c with
  | CallInitLogger opt hooks => Some (InitLogger opt hooks st)
  | CallGetLogWirter => _ ← GetLogWirter st; Some st
  | CallEmission s f site => emission s f site st
  | CallPure args => Some (Pure args st)
  | CallPuref msg args => Some (Puref msg args st)
  end.

Fixpoint run (cs : list Call) (st : State) : option State :=
  match cs with
  | [] => Some st
  | c :: rest => st' ← exec c st; run rest st'
  end.

(** The state when [main] starts: the package's [init] has run. *)
Definition loaded : State := init zeroState.

(** The events a step appended to the trace. *)
Definition added (before after : State) : list Event :=
  drop (length (trace before)) (trace after).

Definition written_to (e : Event) : option WriteSyncer :=
  match e with Write w _ => Some w | CallHook _ _ => None end.

Definition hook_called (e : Event) : option Hook :=
  match e with Write _ _ => None | CallHook h _ => Some h end.

(** The writers a stretch of the trace wrote to, and the hooks it called. *)
Definition writers_of (es : list Event) : list WriteSyncer :=
  omap written_to es.

Definition hooks_of (es : list Event) : list Hook :=
  omap hook_called es.

(** The writers of a core, in the order in which an accepted entry reaches
    them (used to state the properties). *)
Fixpoint writers (c : zapcore.Core) : list WriteSyncer :=
  match c with
  | zapcore.ioCore out _ => [out]
  | zapcore.multiCore cs => flat_map writers cs
  | zapcore.hooked c' _ => writers c'
  end.

(** The state after a list of events. *)
Definition emit_all (es : list Event) (st : State) : State :=
  {| logger := logger st; fileWirtor := fileWirtor st; stdWirtor := stdWirtor st;
     loggers := loggers st; vars := vars st; trace := trace st ++ es |}.

(** Which function a closure calls in a given heap of variables. *)
Definition resolves (cells : list (option Hook)) (f : closure) (h : Hook) : Prop :=
  cells !! captured f = Some (Some h).

(** The functions the closures of [hooksHandler] call, in the order of the
    closures. *)
Definition called (sem : LoopVar) (hooks : list Hook) : list Hook :=
  match sem with
  | PerLoop =>
      match last hooks with
      | Some h => replicate (length hooks) h
      | None => []
      end
  | PerIteration => hooks
  end.

(** The core [InitLogger] builds for the options [opt] around the file
    writer [fw]; [InitLogger_state] below shows that it is the one. *)
Definition treeCore (opt : Options) (fw : WriteSyncer) : zapcore.Core :=
  if NotStdout opt && negb (String.eqb (Filename opt) "") then
    zapcore.NewCore fw (OptLevel opt)
  else if String.eqb (Filename opt) "" && negb (NotStdout opt) then
    zapcore.NewCore Stdout (OptLevel opt)
  else
    zapcore.NewTee [zapcore.NewCore Stdout (OptLevel opt);
                    zapcore.NewCore fw (OptLevel opt)].

(** The lumberjack logger [getLogWriter] makes for [opt]. *)
Definition lumberJackLogger (opt : Options) : lumberjack.Logger :=
  {| lumberjack.Filename := Filename opt;
     lumberjack.MaxSize := MaxSize opt;
     lumberjack.MaxBackups := MaxBackups opt;
     lumberjack.MaxAge := MaxAge opt;
     lumberjack.Compress := Compress opt |}.

(** A pipeline has been built: the logger filters at one level in front of
    its writers, its hook closures all call some function, and the file
    writer is set. *)
Definition ready (st : State) : Prop :=
  exists tree funcs hs m ws,
    logger st = Some (zap.Hooks funcs (zap.New tree))
    /\ (forall ent, zapcore.Check tree ent
          = if zapcore.Enabled m (zapcore.EntryLevel ent)
            then map zapcore.ToWriter ws else [])
    /\ ws <> []
    /\ Forall2 (resolves (vars st)) funcs hs
    /\ is_Some (fileWirtor st).

Definition builds (c : Call) : bool :=
  match c with CallInitLogger _ _ => true | _ => false end.

(** The writers [Pure] and [Puref] write to: the package's two writer
    variables that are not nil, the file writer first. *)
Definition pure_writers (st : State) : list WriteSyncer :=
  option_list (fileWirtor st) ++ option_list (stdWirtor st).

(** The level each emission function logs at, the message it builds and
    the fields it passes (lines 167-283, read per family). *)
Definition level_of (s : Severity) : Level :=
  match s with
  | SDebug => DebugLevel
  | SInfo => InfoLevel
  | SWarn => WarnLevel
  | SError => ErrorLevel
  | SDPanic => DPanicLevel
  | SPanic => PanicLevel
  | SFatal => FatalLevel
  end.

Definition message_of (f : Form) : string :=
  match f with
  | Plain args => Sprint args
  | Templated template args => Sprintf template args
  | Keyed msg _ => msg
  end.

Definition fields_of (f : Form) : list Arg :=
  match f with
  | Plain _ | Templated _ _ => []
  | Keyed _ keysAndValues => keysAndValues
  end.

(** The logger of [st] filters at [m] in front of the writers [ws], and its
    hook closures call [hs], in this order. *)
Definition pipeline (st : State) (m : Level) (ws : list WriteSyncer)
    (hs : list Hook) : Prop :=
  exists tree funcs,
    logger st = Some (zap.Hooks funcs (zap.New tree))
    /\ (forall ent, zapcore.Check tree ent
          = if zapcore.Enabled m (zapcore.EntryLevel ent)
            then map zapcore.ToWriter ws else [])
    /\ ws <> []
    /\ Forall2 (resolves (vars st)) funcs hs.

(** ** Basic facts about the trace *)

Lemma emit_is_emit_all e st : emit e st = emit_all [e] st.
Proof. reflexivity. Qed.

Lemma emit_all_nil st : emit_all [] st = st.
Proof. destruct st; unfold emit_all; simpl. by rewrite app_nil_r. Qed.

Lemma emit_all_app es1 es2 st :
  emit_all es2 (emit_all es1 st) = emit_all (es1 ++ es2) st.
Proof. unfold emit_all; simpl. by rewrite app_assoc. Qed.

Lemma added_emit_all es st : added st (emit_all es st) = es.
Proof. unfold added, emit_all; simpl. by rewrite drop_app_length. Qed.

Lemma added_refl st : added st st = [].
Proof. unfold added. by rewrite drop_all. Qed.

Lemma writers_of_app es1 es2 :
  writers_of (es1 ++ es2) = writers_of es1 ++ writers_of es2.
Proof. unfold writers_of. apply omap_app. Qed.

Lemma hooks_of_app es1 es2 : hooks_of (es1 ++ es2) = hooks_of es1 ++ hooks_of es2.
Proof. unfold hooks_of. apply omap_app. Qed.

Lemma writers_of_writes (ws : list WriteSyncer) p :
  writers_of (map (fun w => Write w p) ws) = ws.
Proof. induction ws as [|w ws IH]; simpl; [done | by f_equal]. Qed.

Lemma hooks_of_writes (ws : list WriteSyncer) p :
  hooks_of (map (fun w => Write w p) ws) = [].
Proof. induction ws as [|w ws IH]; simpl; done. Qed.

Lemma writers_of_calls (hs : list Hook) info :
  writers_of (map (fun h => CallHook h info) hs) = [].
Proof. induction hs as [|h hs IH]; simpl; done. Qed.

Lemma hooks_of_calls (hs : list Hook) info :
  hooks_of (map (fun h => CallHook h info) hs) = hs.
Proof. induction hs as [|h hs IH]; simpl; [done | by f_equal]. Qed.

(** ** Hook dispatch *)

(** [notify] calls, in order, the function each closure resolves to. *)
Lemma notify_resolved funcs hs entity st :
  Forall2 (resolves (vars st)) funcs hs ->
  notify funcs entity st
  = Some (emit_all (map (fun h => CallHook h (toLogInfo entity)) hs) st).
Proof.
  intros H. revert hs st H.
  induction funcs as [|f funcs IH]; intros hs st H.
  - apply Forall2_nil_inv_l in H as ->. simpl. by rewrite emit_all_nil.
  - apply Forall2_cons_inv_l in H as (h & hs' & Hf & Hrest & ->).
    simpl. unfold call_closure. unfold resolves in Hf. rewrite Hf. simpl.
    rewrite (IH hs' (emit (CallHook h (toLogInfo entity)) st)) by exact Hrest.
    by rewrite emit_is_emit_all, emit_all_app.
Qed.

Lemma deliver_writers (ws : list WriteSyncer) rest entity fields st :
  deliver (map zapcore.ToWriter ws ++ rest) entity fields st
  = deliver rest entity fields
      (emit_all (map (fun w => Write w (encode entity fields)) ws) st).
Proof.
  revert st. induction ws as [|w ws IH]; intros st; simpl.
  - by rewrite emit_all_nil.
  - rewrite IH. by rewrite emit_is_emit_all, emit_all_app.
Qed.

(** ** The closures of [hooksHandler] *)

(** With one [hook] variable for the whole loop, every closure captures the
    same variable, and the loop leaves the last element of [hooks] in it. *)
Lemma range_hooks_PerLoop v hooks acc cells :
  range_hooks PerLoop v hooks acc cells
  = (acc ++ replicate (length hooks) (Closure v),
     match last hooks with
     | Some h => <[v := Some h]> cells
     | None => cells
     end).
Proof.
  revert acc cells. induction hooks as [|h rest IH]; intros acc cells; simpl.
  - by rewrite app_nil_r.
  - rewrite IH, <- app_assoc. simpl. f_equal.
    rewrite last_cons. destruct (last rest) as [h'|]; [|done].
    by rewrite list_insert_insert_eq.
Qed.

Lemma hooksHandler_PerLoop hooks cells :
  hooksHandler_with PerLoop hooks cells
  = (replicate (length hooks) (Closure (length cells)), cells ++ [last hooks]).
Proof.
  unfold hooksHandler_with. rewrite range_hooks_PerLoop. simpl. f_equal.
  destruct (last hooks) as [h|]; [|done].
  replace (length cells) with (length cells + 0)%nat at 1 by lia.
  by rewrite insert_app_r.
Qed.

(** With a [hook] variable per iteration, the i-th closure captures a
    variable of its own, which holds the i-th element of [hooks]. *)
Lemma range_hooks_PerIteration v hooks acc cells :
  range_hooks PerIteration v hooks acc cells
  = (acc ++ map Closure (seq (length cells) (length hooks)),
     cells ++ map Some hooks).
Proof.
  revert v acc cells. induction hooks as [|h rest IH]; intros v acc cells; simpl.
  - by rewrite !app_nil_r.
  - rewrite IH, <- !app_assoc, length_app. simpl.
    by rewrite Nat.add_1_r.
Qed.

Lemma hooksHandler_PerIteration hooks cells :
  hooksHandler_with PerIteration hooks cells
  = (map Closure (seq (length cells) (length hooks)), cells ++ map Some hooks).
Proof. unfold hooksHandler_with. by rewrite range_hooks_PerIteration. Qed.

Lemma resolves_PerIteration hooks cells :
  Forall2 (resolves (cells ++ map Some hooks))
    (map Closure (seq (length cells) (length hooks))) hooks.
Proof.
  revert cells. induction hooks as [|h rest IH]; intros cells; simpl.
  - constructor.
  - constructor.
    + unfold resolves. simpl. by rewrite list_lookup_middle.
    + specialize (IH (cells ++ [Some h])).
      rewrite <- app_assoc, length_app in IH. simpl in IH.
      by rewrite Nat.add_1_r in IH.
Qed.

Lemma resolves_PerLoop n h cells :
  Forall2 (resolves (cells ++ [Some h]))
    (replicate n (Closure (length cells))) (replicate n h).
Proof.
  induction n as [|n IH]; simpl; constructor; [|done].
  unfold resolves. simpl. by rewrite list_lookup_middle.
Qed.

Lemma hooksHandler_resolved sem hooks cells :
  Forall2 (resolves (hooksHandler_with sem hooks cells).2)
    (hooksHandler_with sem hooks cells).1 (called sem hooks).
Proof.
  destruct sem.
  - rewrite hooksHandler_PerLoop. simpl.
    destruct (last hooks) as [h|] eqn:E.
    + apply resolves_PerLoop.
    + apply last_None in E as ->. constructor.
  - rewrite hooksHandler_PerIteration. simpl. apply resolves_PerIteration.
Qed.

(** ** What [InitLogger] leaves behind *)

Lemma InitLogger_state sem opt hooks st :
  InitLogger_with sem opt hooks st
  = {| logger :=
         Some (zap.Hooks (hooksHandler_with sem hooks (vars st)).1
                 (zap.New (treeCore opt (Lumberjack (length (loggers st))))));
       fileWirtor := Some (Lumberjack (length (loggers st)));
       stdWirtor :=
         if NotStdout opt && negb (String.eqb (Filename opt) "")
         then stdWirtor st else Some Stdout;
       loggers := loggers st ++ [lumberJackLogger opt];
       vars := (hooksHandler_with sem hooks (vars st)).2;
       trace := trace st |}.
Proof.
  unfold InitLogger_with, getLogWriter, treeCore, lumberJackLogger.
  destruct (NotStdout opt), (String.eqb (Filename opt) ""); simpl;
    destruct (hooksHandler_with sem hooks (vars st)); reflexivity.
Qed.

(** [getLogWriter] hands the size, count and age limits of the options to
    lumberjack as they are; what a limit of 0 means is lumberjack's. *)
Lemma getLogWriter_forwards opt st :
  (getLogWriter opt st).1 = Lumberjack (length (loggers st))
  /\ loggers (getLogWriter opt st).2 !! length (loggers st)
     = Some (lumberJackLogger opt)
  /\ lumberjack.MaxSize (lumberJackLogger opt) = MaxSize opt
  /\ lumberjack.MaxBackups (lumberJackLogger opt) = MaxBackups opt
  /\ lumberjack.MaxAge (lumberJackLogger opt) = MaxAge opt.
Proof.
  unfold getLogWriter. simpl. split_and!; try done.
  by rewrite list_lookup_middle.
Qed.

Lemma Check_treeCore opt fw ent :
  zapcore.Check (treeCore opt fw) ent
  = if zapcore.Enabled (OptLevel opt) (zapcore.EntryLevel ent)
    then map zapcore.ToWriter (writers (treeCore opt fw)) else [].
Proof.
  unfold treeCore.
  destruct (NotStdout opt), (String.eqb (Filename opt) ""); simpl;
    destruct (zapcore.Enabled _ _); reflexivity.
Qed.

Lemma writers_treeCore_nonempty opt fw : writers (treeCore opt fw) <> [].
Proof.
  unfold treeCore.
  destruct (NotStdout opt), (String.eqb (Filename opt) ""); simpl; discriminate.
Qed.

(** An emission through a logger that filters at [m] in front of the
    writers [ws] and whose closures call [hs]. *)
Lemma log_through tree funcs hs m ws lvl msg fields site st :
  logger st = Some (zap.Hooks funcs (zap.New tree)) ->
  (forall ent, zapcore.Check tree ent
     = if zapcore.Enabled m (zapcore.EntryLevel ent)
       then map zapcore.ToWriter ws else []) ->
  ws <> [] ->
  Forall2 (resolves (vars st)) funcs hs ->
  log lvl msg fields site st
  = Some (emit_all
            (if zapcore.Enabled m lvl
             then map (fun w => Write w (encode (new_entry lvl msg site) fields)) ws
                  ++ map (fun h => CallHook h (toLogInfo (new_entry lvl msg site))) hs
             else [])
            st).
Proof.
  intros Hl Hc Hws Hr. unfold log. rewrite Hl.
  set (entity := new_entry lvl msg site).
  assert (zapcore.Check (zap.core (zap.Hooks funcs (zap.New tree))) entity
          = if zapcore.Enabled m lvl
            then map zapcore.ToWriter ws ++ [zapcore.ToHooks funcs] else [])
    as ->.
  { simpl. rewrite Hc. simpl. destruct (zapcore.Enabled m lvl); [|done].
    by destruct ws. }
  destruct (zapcore.Enabled m lvl).
  - rewrite deliver_writers. simpl.
    rewrite (notify_resolved funcs hs) by exact Hr. simpl.
    by rewrite emit_all_app.
  - simpl. by rewrite emit_all_nil.
Qed.

Lemma log_after_InitLogger sem opt hooks st lvl msg fields site :
  log lvl msg fields site (InitLogger_with sem opt hooks st)
  = Some (emit_all
            (if zapcore.Enabled (OptLevel opt) lvl
             then map (fun w => Write w (encode (new_entry lvl msg site) fields))
                    (writers (treeCore opt (Lumberjack (length (loggers st)))))
                  ++ map (fun h => CallHook h (toLogInfo (new_entry lvl msg site)))
                       (called sem hooks)
             else [])
            (InitLogger_with sem opt hooks st)).
Proof.
  apply (log_through (treeCore opt (Lumberjack (length (loggers st))))
           (hooksHandler_with sem hooks (vars st)).1).
  - by rewrite InitLogger_state.
  - intros ent. apply Check_treeCore.
  - apply writers_treeCore_nonempty.
  - rewrite InitLogger_state. simpl. apply hooksHandler_resolved.
Qed.

(** ** Frame: what a call other than [InitLogger] can change *)

Lemma notify_frame funcs entity st st' :
  notify funcs entity st = Some st' -> exists es, st' = emit_all es st.
Proof.
  revert st. induction funcs as [|f funcs IH]; intros st; simpl.
  - intros [= <-]. exists []. by rewrite emit_all_nil.
  - unfold call_closure.
    destruct (vars st !! captured f) as [[h|]|]; simpl; try discriminate.
    intros H. apply IH in H as [es ->].
    eexists. by rewrite emit_is_emit_all, emit_all_app.
Qed.

Lemma deliver_frame ts entity fields st st' :
  deliver ts entity fields st = Some st' -> exists es, st' = emit_all es st.
Proof.
  revert st. induction ts as [|t ts IH]; intros st; simpl.
  - intros [= <-]. exists []. by rewrite emit_all_nil.
  - destruct t as [w|funcs].
    + intros H. apply IH in H as [es ->].
      eexists. by rewrite emit_is_emit_all, emit_all_app.
    + destruct (notify funcs entity st) as [st1|] eqn:E; simpl; [|discriminate].
      apply notify_frame in E as [es1 ->].
      intros H. apply IH in H as [es ->].
      eexists. by rewrite emit_all_app.
Qed.

Lemma log_frame lvl msg fields site st st' :
  log lvl msg fields site st = Some st' -> exists es, st' = emit_all es st.
Proof.
  unfold log. destruct (logger st); [|discriminate]. apply deliver_frame.
Qed.

Lemma emission_frame s f site st st' :
  emission s f site st = Some st' -> exists es, st' = emit_all es st.
Proof. destruct f, s; apply log_frame. Qed.

Lemma Pure_trace args st :
  Pure args st
  = emit_all (map (fun w => Write w (Sprintln args)) (pure_writers st)) st.
Proof.
  unfold Pure, pure_writers.
  destruct (fileWirtor st) as [fw|] eqn:Ef; simpl;
    destruct (stdWirtor st) as [sw|] eqn:Es; simpl;
    rewrite ?emit_is_emit_all, ?emit_all_app, ?emit_all_nil; reflexivity.
Qed.

Lemma Puref_trace msg args st :
  Puref msg args st
  = emit_all (map (fun w => Write w (Sprintf msg args +:+ newline))
                (pure_writers st)) st.
Proof.
  unfold Puref, pure_writers.
  destruct (fileWirtor st) as [fw|] eqn:Ef; simpl;
    destruct (stdWirtor st) as [sw|] eqn:Es; simpl;
    rewrite ?emit_is_emit_all, ?emit_all_app, ?emit_all_nil; reflexivity.
Qed.

Lemma exec_frame c st st' :
  exec c st = Some st' -> builds c = false -> exists es, st' = emit_all es st.
Proof.
  destruct c; simpl; try discriminate; intros H _.
  - destruct (GetLogWirter st); simpl in H; [|discriminate].
    injection H as <-. exists []. by rewrite emit_all_nil.
  - by eapply emission_frame.
  - injection H as <-. eexists. apply Pure_trace.
  - injection H as <-. eexists. apply Puref_trace.
Qed.

(** ** Once a pipeline is built, it stays built *)

Lemma ready_emit_all es st : ready st -> ready (emit_all es st).
Proof.
  intros (tree & funcs & hs & m & ws & Hl & Hc & Hws & Hr & Hf).
  by exists tree, funcs, hs, m, ws.
Qed.

Lemma ready_InitLogger sem opt hooks st : ready (InitLogger_with sem opt hooks st).
Proof.
  rewrite InitLogger_state.
  exists (treeCore opt (Lumberjack (length (loggers st)))),
    (hooksHandler_with sem hooks (vars st)).1, (called sem hooks),
    (OptLevel opt), (writers (treeCore opt (Lumberjack (length (loggers st))))).
  simpl. split_and!.
  - done.
  - intros ent. apply Check_treeCore.
  - apply writers_treeCore_nonempty.
  - apply hooksHandler_resolved.
  - by eexists.
Qed.

Lemma ready_logger st : ready st -> logger st <> None.
Proof. intros (tree & funcs & hs & m & ws & Hl & _). by rewrite Hl. Qed.

Lemma ready_log lvl msg fields site st :
  ready st -> exists es, log lvl msg fields site st = Some (emit_all es st).
Proof.
  intros (tree & funcs & hs & m & ws & Hl & Hc & Hws & Hr & Hf).
  eexists. by apply (log_through tree funcs hs m ws).
Qed.

Lemma ready_emission s f site st :
  ready st -> exists es, emission s f site st = Some (emit_all es st).
Proof. intros H. destruct f, s; by apply ready_log. Qed.

Lemma ready_GetLogWirter st :
  ready st -> exists w, GetLogWirter st = Some (Some w, None).
Proof.
  intros (tree & funcs & hs & m & ws & Hl & Hc & Hws & Hr & [w Hf]).
  exists w. unfold GetLogWirter. by rewrite Hl, Hf.
Qed.

Lemma ready_exec c st : ready st -> exists st', exec c st = Some st' /\ ready st'.
Proof.
  intros H. destruct c; simpl.
  - eexists. split; [done|]. apply ready_InitLogger.
  - destruct (ready_GetLogWirter st H) as [w ->]. simpl. by exists st.
  - destruct (ready_emission s f site st H) as [es ->].
    eexists. split; [done|]. by apply ready_emit_all.
  - eexists. split; [done|]. rewrite Pure_trace. by apply ready_emit_all.
  - eexists. split; [done|]. rewrite Puref_trace. by apply ready_emit_all.
Qed.

Lemma ready_run cs st : ready st -> exists st', run cs st = Some st' /\ ready st'.
Proof.
  revert st. induction cs as [|c cs IH]; intros st H; simpl.
  - by exists st.
  - destruct (ready_exec c st H) as (st1 & -> & H1). simpl. by apply IH.
Qed.

(** From a state in which nothing is built yet, the logger is still nil
    exactly when no call so far was [InitLogger]. *)
Lemma run_built cs st st' :
  run cs st = Some st' ->
  logger st = None \/ ready st ->
  (logger st' = None \/ ready st')
  /\ (logger st' = None <-> logger st = None /\ Forall (fun c => builds c = false) cs).
Proof.
  revert st. induction cs as [|c cs IH]; intros st; simpl.
  - intros [= <-] H. split; [done|]. split; [by intros ?|by intros [? _]].
  - destruct (exec c st) as [st1|] eqn:E; simpl; [|discriminate].
    intros Hrun H.
    destruct (builds c) eqn:Eb.
    + destruct c; try discriminate. simpl in E. injection E as <-.
      destruct (IH _ Hrun (or_intror (ready_InitLogger _ opt hooks st)))
        as [Hinv Hiff].
      split; [done|]. split.
      * intros Hn. apply Hiff in Hn as [Hn _].
        by apply ready_logger in Hn; [|apply ready_InitLogger].
      * intros [_ Hall]. apply Forall_cons in Hall as [Hc _]. discriminate.
    + destruct (exec_frame _ _ _ E Eb) as [es ->].
      assert (logger (emit_all es st) = None \/ ready (emit_all es st)) as H1.
      { destruct H as [H|H]; [by left|right; by apply ready_emit_all]. }
      destruct (IH _ Hrun H1) as [Hinv Hiff].
      split; [done|]. rewrite Hiff, Forall_cons. simpl. tauto.
Qed.

Lemma run_frame cs st st' :
  Forall (fun c => builds c = false) cs ->
  run cs st = Some st' -> exists es, st' = emit_all es st.
Proof.
  intros Hall. revert st. induction Hall as [|c cs Hc Hall IH]; intros st; simpl.
  - intros [= <-]. exists []. by rewrite emit_all_nil.
  - destruct (exec c st) as [st1|] eqn:E; simpl; [|discriminate].
    destruct (exec_frame _ _ _ E Hc) as [es1 ->].
    intros H. apply IH in H as [es ->].
    eexists. by rewrite emit_all_app.
Qed.

(** ** The properties of the specification *)

(** C8: for every filename f, [GetDefault f] is exactly the options with
    Filename f, MaxSize 100, MaxBackups 10, MaxAge 30, Compress false,
    NotStdout false and Level InfoLevel; being a function of f alone, it is
    the same on every call. *)
Theorem GetDefault_value (filename : string) :
  GetDefault filename
  = {| NotStdout := false; OptLevel := InfoLevel; Filename := filename;
       MaxSize := 100; MaxBackups := 10; MaxAge := 30; Compress := false |}.
Proof. reflexivity. Qed.

(** C5: for every argument list, [Pure] writes to each of its writers (the
    writer variables that are set) exactly the default forms of the
    arguments joined by single spaces and followed by a newline, nothing
    before and nothing after; it calls no hook and leaves the logger and the
    writer variables as they were. *)
Theorem Pure_writes_joined_args (args : list Arg) (st : State) :
  trace (Pure args st)
  = trace st
    ++ map (fun w => Write w (String.concat " " (map fmt_v args) +:+ newline))
         (pure_writers st)
  /\ hooks_of (added st (Pure args st)) = []
  /\ writers_of (added st (Pure args st)) = pure_writers st
  /\ logger (Pure args st) = logger st
  /\ fileWirtor (Pure args st) = fileWirtor st
  /\ stdWirtor (Pure args st) = stdWirtor st.
Proof.
  rewrite Pure_trace, added_emit_all. unfold Sprintln. simpl.
  split_and!; try done.
  - apply hooks_of_writes.
  - apply writers_of_writes.
Qed.

(** C6: the seven levels are strictly increasing from DebugLevel to
    FatalLevel, and for every configured minimum and every level of an
    entry, the entry reaches the writers of the pipeline and the hooks if
    the level is at least the minimum, and reaches nothing otherwise. *)
Theorem levels_ordered_and_filtering :
  (DebugLevel < InfoLevel /\ InfoLevel < WarnLevel /\ WarnLevel < ErrorLevel
   /\ ErrorLevel < DPanicLevel /\ DPanicLevel < PanicLevel
   /\ PanicLevel < FatalLevel)
  /\ forall (opt : Options) (hooks : list Hook) (st : State) (lvl : Level)
        (msg : string) (fields : list Arg) (site : CallSite),
      exists st',
        log lvl msg fields site (InitLogger opt hooks st) = Some st'
        /\ (OptLevel opt <= lvl ->
              writers_of (added (InitLogger opt hooks st) st')
              = writers (treeCore opt (Lumberjack (length (loggers st))))
              /\ length (hooks_of (added (InitLogger opt hooks st) st'))
                 = length hooks)
        /\ (lvl < OptLevel opt -> added (InitLogger opt hooks st) st' = [])
        /\ (writers_of (added (InitLogger opt hooks st) st') <> []
              <-> OptLevel opt <= lvl).
Proof.
  split; [unfold DebugLevel, InfoLevel, WarnLevel, ErrorLevel, DPanicLevel,
            PanicLevel, FatalLevel; lia|].
  intros opt hooks st lvl msg fields site. unfold InitLogger.
  eexists. split; [apply log_after_InitLogger|].
  rewrite added_emit_all. unfold zapcore.Enabled.
  destruct (Z.leb_spec (OptLevel opt) lvl) as [Hle|Hlt].
  - rewrite writers_of_app, hooks_of_app, writers_of_writes, writers_of_calls,
      hooks_of_writes, hooks_of_calls, app_nil_r. simpl.
    split_and!.
    + intros _. split; [done|].
      destruct (last hooks) as [h|] eqn:E.
      * apply length_replicate.
      * by apply last_None in E as ->.
    + lia.
    + split; [done|]. intros _. apply writers_treeCore_nonempty.
  - split_and!; [lia|done|]. simpl. split; [done|lia].
Qed.

(** C7: in every state a program can reach from the start of the package,
    [GetLogWirter] returns a non-nil error exactly when the logger is nil,
    which is exactly when no [InitLogger] call has been made; otherwise it
    returns a writer and a nil error; and the call changes nothing. *)
Theorem GetLogWirter_error_iff_unbuilt (cs : list Call) (st : State) :
  run cs zeroState = Some st ->
  exec CallGetLogWirter st = Some st
  /\ exists w e,
       GetLogWirter st = Some (w, e)
       /\ (e <> None <-> logger st = None)
       /\ (logger st = None <-> Forall (fun c => builds c = false) cs)
       /\ (logger st <> None -> is_Some w /\ e = None).
Proof.
  intros Hrun.
  destruct (run_built cs zeroState st Hrun (or_introl eq_refl)) as [Hinv Hiff].
  assert (logger st = None <-> Forall (fun c => builds c = false) cs) as Hcs.
  { rewrite Hiff. simpl. tauto. }
  destruct Hinv as [Hn|Hr].
  - unfold exec, GetLogWirter. rewrite Hn. simpl. split; [done|].
    eexists _, _. split_and!; try done.
    split; [intros _; by apply Hcs|done].
  - destruct (ready_GetLogWirter st Hr) as [w Hw].
    pose proof (ready_logger st Hr) as Hl.
    unfold exec. rewrite Hw. simpl. split; [done|].
    exists (Some w), None. split_and!; done.
Qed.

(** C9: [init] builds a pipeline that writes to standard output only, at
    DebugLevel, with no hooks, around a file writer with no file name; from
    then on, whatever the program calls, no call fails on a nil pointer, the
    logger is never nil, every emission function can be called, and
    [GetLogWirter] returns a writer and no error. *)
Theorem init_builds_default_pipeline :
  logger loaded
  = Some (zap.Hooks [] (zap.New (zapcore.NewCore Stdout DebugLevel)))
  /\ fmap lumberjack.Filename (loggers loaded) = [""]
  /\ forall cs : list Call,
      exists st,
        run cs loaded = Some st
        /\ logger st <> None
        /\ (forall s f site, exists st', emission s f site st = Some st')
        /\ exists w, GetLogWirter st = Some (Some w, None).
Proof.
  split; [reflexivity|]. split; [reflexivity|].
  intros cs.
  destruct (ready_run cs loaded) as (st & Hrun & Hr).
  { apply ready_InitLogger. }
  exists st. split_and!.
  - done.
  - by apply ready_logger.
  - intros s f site. destruct (ready_emission s f site st Hr) as [es H].
    by eexists.
  - by apply ready_GetLogWirter.
Qed.

(** C10: after an [InitLogger] call and any calls other than [InitLogger],
    [GetLogWirter] returns the lumberjack writer that this [InitLogger]
    created from its options, never the standard-output writer; when the
    options select standard output only (empty Filename, NotStdout false),
    the pipeline writes to standard output alone and the returned writer is
    the lumberjack writer with the empty file name. *)
Theorem GetLogWirter_returns_file_writer (opt : Options) (hooks : list Hook)
    (st : State) (cs : list Call) (st' : State) :
  Forall (fun c => builds c = false) cs ->
  run cs (InitLogger opt hooks st) = Some st' ->
  GetLogWirter st' = Some (Some (Lumberjack (length (loggers st))), None)
  /\ loggers st' !! length (loggers st) = Some (lumberJackLogger opt)
  /\ Lumberjack (length (loggers st)) <> Stdout
  /\ (Filename opt = "" -> NotStdout opt = false ->
        fmap (fun l => writers (zap.core l)) (logger st') = Some [Stdout]
        /\ lumberjack.Filename (lumberJackLogger opt) = "").
Proof.
  intros Hall Hrun. apply run_frame in Hrun as [es ->]; [|done].
  unfold InitLogger. rewrite InitLogger_state.
  unfold GetLogWirter. simpl. split_and!.
  - done.
  - by rewrite list_lookup_middle.
  - discriminate.
  - intros Hf Hn. unfold treeCore. rewrite Hf, Hn. simpl. done.
Qed.

(** ** Where the code departs from the specification *)

(** The hooks an accepted entry reaches, under either loop-variable rule. *)
Lemma hooks_called_after_InitLogger sem opt hooks st lvl msg fields site :
  OptLevel opt <= lvl ->
  exists st',
    log lvl msg fields site (InitLogger_with sem opt hooks st) = Some st'
    /\ hooks_of (added (InitLogger_with sem opt hooks st) st') = called sem hooks.
Proof.
  intros Hle. eexists. split; [apply log_after_InitLogger|].
  rewrite added_emit_all. unfold zapcore.Enabled.
  destruct (Z.leb_spec (OptLevel opt) lvl); [|lia].
  by rewrite hooks_of_app, hooks_of_writes, hooks_of_calls.
Qed.

(** Had the module been compiled with a [hook] variable per iteration (Go
    1.22 or later in go.mod), every hook would be called once, in the order
    of registration. *)
Lemma hooks_in_order_PerIteration opt hooks st lvl msg fields site :
  OptLevel opt <= lvl ->
  exists st',
    log lvl msg fields site (InitLogger_with PerIteration opt hooks st) = Some st'
    /\ hooks_of (added (InitLogger_with PerIteration opt hooks st) st') = hooks.
Proof. apply hooks_called_after_InitLogger. Qed.

(** As the module is compiled (go 1.19), every closure calls the hook that
    was registered last. *)
Lemma hooks_all_last opt hooks h st lvl msg fields site :
  OptLevel opt <= lvl ->
  last hooks = Some h ->
  exists st',
    log lvl msg fields site (InitLogger opt hooks st) = Some st'
    /\ hooks_of (added (InitLogger opt hooks st) st')
       = replicate (length hooks) h.
Proof.
  intros Hle Hlast.
  destruct (hooks_called_after_InitLogger (loopvar_of_go go_minor)
              opt hooks st lvl msg fields site Hle) as (st' & Hlog & Hh).
  exists st'. split; [done|]. unfold InitLogger. rewrite Hh.
  change (loopvar_of_go go_minor) with PerLoop. simpl. by rewrite Hlast.
Qed.

(** C1 (the code does not do this): with the hooks h1 and h2 registered in
    this order, an Info entry under the default options is accepted, and the
    two hook calls it causes are both calls of h2; h1 is not called. *)
Theorem two_hooks_second_called_twice (h1 h2 : Hook) (filename : string)
    (args : list Arg) (site : CallSite) (st : State) :
  exists st',
    Info args site (InitLogger (GetDefault filename) [h1; h2] st) = Some st'
    /\ hooks_of (added (InitLogger (GetDefault filename) [h1; h2] st) st')
       = [h2; h2].
Proof.
  unfold Info.
  apply (hooks_all_last (GetDefault filename) [h1; h2] h2); [|reflexivity].
  simpl. unfold InfoLevel. lia.
Qed.

(** For every combination of options but one, the writers of the pipeline
    are the ones the options name. *)
Lemma sinks_match_options opt p :
  ~ (NotStdout opt = true /\ Filename opt = "") ->
  (Stdout ∈ writers (treeCore opt (Lumberjack p)) <-> NotStdout opt = false)
  /\ (Lumberjack p ∈ writers (treeCore opt (Lumberjack p)) <-> Filename opt <> "").
Proof.
  intros Hcase. unfold treeCore.
  destruct (NotStdout opt) eqn:En;
    destruct (String.eqb_spec (Filename opt) "") as [Ef|Ef]; simpl.
  - destruct Hcase. done.
  - rewrite !list_elem_of_singleton. split; split; done.
  - rewrite !list_elem_of_singleton. split; split; done.
  - rewrite !elem_of_cons.
    split; split; try done; intros _; [by left|right; by left].
Qed.

(** C2 (the code does not do this): with NotStdout true and an empty
    Filename, the pipeline is not empty: an accepted entry is written to
    standard output and to the lumberjack writer with the empty file name. *)
Theorem no_sink_selected_writes_to_both (hooks : list Hook) (args : list Arg)
    (site : CallSite) (st : State) :
  let opt :=
    {| NotStdout := true; OptLevel := DebugLevel; Filename := "";
       MaxSize := 0; MaxBackups := 0; MaxAge := 0; Compress := false |} in
  exists st',
    Info args site (InitLogger opt hooks st) = Some st'
    /\ writers_of (added (InitLogger opt hooks st) st')
       = [Stdout; Lumberjack (length (loggers st))]
    /\ fmap lumberjack.Filename
         (loggers (InitLogger opt hooks st) !! length (loggers st))
       = Some "".
Proof.
  intros opt. unfold Info, InitLogger.
  eexists. split; [apply log_after_InitLogger|].
  rewrite added_emit_all, InitLogger_state. simpl.
  rewrite list_lookup_middle by done. split; [|done].
  by rewrite writers_of_calls.
Qed.

(** After the package is loaded, both writer variables stay set, whatever
    the options of later [InitLogger] calls select. *)
Lemma both_writers_set cs st :
  run cs loaded = Some st ->
  exists p, pure_writers st = [Lumberjack p; Stdout].
Proof.
  assert (forall cs st0 st1,
            run cs st0 = Some st1 ->
            (exists p, pure_writers st0 = [Lumberjack p; Stdout]) ->
            exists p, pure_writers st1 = [Lumberjack p; Stdout]) as Hinv.
  { clear. induction cs as [|c cs IH]; intros st0 st1; simpl.
    - by intros [= <-].
    - destruct (exec c st0) as [st2|] eqn:E; simpl; [|discriminate].
      intros Hrun [p Hp]. apply (IH _ _ Hrun).
      destruct (builds c) eqn:Eb.
      + destruct c; try discriminate. simpl in E. injection E as <-.
        unfold InitLogger. rewrite InitLogger_state.
        unfold pure_writers in *. simpl.
        destruct (fileWirtor st0), (stdWirtor st0); simplify_eq/=.
        eexists. by destruct (_ && _).
      + destruct (exec_frame _ _ _ E Eb) as [es ->]. by exists p. }
  intros Hrun. apply (Hinv cs loaded st Hrun). by exists 0%nat.
Qed.

(** C3 (the code does not do this): right after the package is loaded, the
    pipeline writes to standard output only, while [Pure] and [Puref] also
    write to the lumberjack writer with the empty file name; and after
    [InitLogger] with NotStdout true and a file name, the pipeline writes to
    the file writer only, while [Pure] and [Puref] also write to standard
    output. *)
Theorem Pure_writes_beyond_the_sinks (args fargs : list Arg) (msg : string)
    (largs : list Arg) (site : CallSite) :
  (writers_of (added loaded (Pure args loaded)) = [Lumberjack 0; Stdout]
   /\ writers_of (added loaded (Puref msg fargs loaded)) = [Lumberjack 0; Stdout]
   /\ fmap lumberjack.Filename (loggers loaded !! 0%nat) = Some ""
   /\ exists st',
        Info largs site loaded = Some st'
        /\ writers_of (added loaded st') = [Stdout])
  /\ let st1 :=
       InitLogger
         {| NotStdout := true; OptLevel := DebugLevel; Filename := "app.log";
            MaxSize := 10; MaxBackups := 10; MaxAge := 2; Compress := false |}
         [] loaded in
     writers_of (added st1 (Pure args st1)) = [Lumberjack 1; Stdout]
     /\ writers_of (added st1 (Puref msg fargs st1)) = [Lumberjack 1; Stdout]
     /\ exists st',
          Info largs site st1 = Some st'
          /\ writers_of (added st1 st') = [Lumberjack 1].
Proof.
  split.
  - rewrite Pure_trace, Puref_trace, !added_emit_all, !writers_of_writes.
    split_and!; try reflexivity.
    unfold Info, loaded, init, InitLogger.
    eexists. split; [apply log_after_InitLogger|].
    rewrite added_emit_all. reflexivity.
  - intros st1.
    rewrite Pure_trace, Puref_trace, !added_emit_all, !writers_of_writes.
    split_and!; try reflexivity.
    unfold Info, st1, InitLogger.
    eexists. split; [apply log_after_InitLogger|].
    rewrite added_emit_all. reflexivity.
Qed.

(** ** Further properties of the package *)

Lemma emission_log s f :
  emission s f = log (level_of s) (message_of f) (fields_of f).
Proof. by destruct f, s. Qed.

(** X1: [Puref] writes, to each writer variable that is set (the file
    writer first, then standard output), the formatted message followed by
    a newline and nothing else; it calls no hook and leaves the logger and
    both writer variables as they were. *)
Theorem Puref_writes_formatted_line (msg : string) (args : list Arg)
    (st : State) :
  trace (Puref msg args st)
  = trace st
    ++ map (fun w => Write w (Sprintf msg args +:+ newline)) (pure_writers st)
  /\ hooks_of (added st (Puref msg args st)) = []
  /\ writers_of (added st (Puref msg args st))
     = option_list (fileWirtor st) ++ option_list (stdWirtor st)
  /\ logger (Puref msg args st) = logger st
  /\ fileWirtor (Puref msg args st) = fileWirtor st
  /\ stdWirtor (Puref msg args st) = stdWirtor st.
Proof.
  rewrite Puref_trace, added_emit_all. simpl. split_and!; try done.
  - apply hooks_of_writes.
  - apply writers_of_writes.
Qed.


(** X3: for every combination of options other than NotStdout true with an
    empty Filename, the pipeline [InitLogger] builds writes to standard
    output exactly when NotStdout is false and to the lumberjack writer it
    has just created exactly when Filename is not empty; it has no other
    writer and no writer twice. *)
Theorem sinks_follow_options (opt : Options) (hooks : list Hook) (st : State) :
  ~ (NotStdout opt = true /\ Filename opt = "") ->
  exists l,
    logger (InitLogger opt hooks st) = Some l
    /\ (Stdout ∈ writers (zap.core l) <-> NotStdout opt = false)
    /\ (Lumberjack (length (loggers st)) ∈ writers (zap.core l)
         <-> Filename opt <> "")
    /\ (forall w, w ∈ writers (zap.core l) ->
           w = Stdout \/ w = Lumberjack (length (loggers st)))
    /\ NoDup (writers (zap.core l)).
Proof.
  intros Hcase. unfold InitLogger. rewrite InitLogger_state. simpl.
  eexists. split; [done|]. simpl.
  destruct (sinks_match_options opt (length (loggers st)) Hcase) as [H1 H2].
  split_and!; [done|done| |].
  - unfold treeCore.
    destruct (NotStdout opt), (String.eqb (Filename opt) ""); simpl;
      intros w; rewrite ?elem_of_cons, ?elem_of_nil; tauto.
  - unfold treeCore.
    destruct (NotStdout opt), (String.eqb (Filename opt) ""); simpl;
      repeat constructor; rewrite ?elem_of_cons, ?elem_of_nil;
      try tauto; intros [H|[]]; discriminate.
Qed.

(** X4: right after [InitLogger], the writer [GetLogWirter] returns is one
    of the writers the pipeline writes accepted entries to, except when the
    options select standard output only (empty Filename and NotStdout
    false); then it is not. *)
Theorem GetLogWirter_writer_is_sink_iff (opt : Options) (hooks : list Hook)
    (st : State) :
  exists w l,
    GetLogWirter (InitLogger opt hooks st) = Some (Some w, None)
    /\ logger (InitLogger opt hooks st) = Some l
    /\ (w ∈ writers (zap.core l)
         <-> ~ (Filename opt = "" /\ NotStdout opt = false)).
Proof.
  unfold InitLogger. rewrite InitLogger_state. unfold GetLogWirter. simpl.
  eexists _, _. split; [done|]. split; [done|]. simpl. unfold treeCore.
  destruct (NotStdout opt);
    destruct (String.eqb_spec (Filename opt) "") as [Ef|Ef]; simpl;
    rewrite ?elem_of_cons, ?elem_of_nil; split; try tauto.
  - intros _ [_ ?]. discriminate.
  - intros [[=]|[]].
Qed.

(** X5: the hooks an accepted entry calls are the registered hooks, each
    once and in order, exactly when every registered hook is the same
    function as the one registered last (in particular with no hook or with
    a single hook). *)
Theorem hooks_as_registered_iff_all_same (opt : Options) (hooks : list Hook)
    (st : State) (lvl : Level) (msg : string) (fields : list Arg)
    (site : CallSite) :
  OptLevel opt <= lvl ->
  exists st',
    log lvl msg fields site (InitLogger opt hooks st) = Some st'
    /\ (hooks_of (added (InitLogger opt hooks st) st') = hooks
         <-> forall h, last hooks = Some h -> Forall (eq h) hooks).
Proof.
  intros Hle.
  destruct (hooks_called_after_InitLogger (loopvar_of_go go_minor)
              opt hooks st lvl msg fields site Hle) as (st' & Hlog & Hh).
  exists st'. split; [done|]. unfold InitLogger. rewrite Hh.
  change (loopvar_of_go go_minor) with PerLoop. simpl.
  destruct (last hooks) as [h|] eqn:E.
  - rewrite replicate_as_Forall. split.
    + intros [_ Hall] h' [= <-]. done.
    + intros Hall. split; [done|]. by apply Hall.
  - apply last_None in E as ->. split; [|done]. intros _ h [=].
Qed.

(** X6: every [InitLogger] call makes a lumberjack logger of its own, also
    when the options are the same as before.  After a second call,
    [GetLogWirter] returns the second logger's writer, the pipeline no
    longer writes to the first, and both loggers are still there with the
    file names of their options. *)
Theorem second_InitLogger_makes_new_writer (opt1 opt2 : Options)
    (hooks1 hooks2 : list Hook) (st : State) :
  let p := length (loggers st) in
  let st1 := InitLogger opt1 hooks1 st in
  let st2 := InitLogger opt2 hooks2 st1 in
  GetLogWirter st1 = Some (Some (Lumberjack p), None)
  /\ GetLogWirter st2 = Some (Some (Lumberjack (S p)), None)
  /\ loggers st2 !! p = Some (lumberJackLogger opt1)
  /\ loggers st2 !! S p = Some (lumberJackLogger opt2)
  /\ length (loggers st2) = S (S p)
  /\ exists l,
       logger st2 = Some l /\ Lumberjack p ∉ writers (zap.core l).
Proof.
  intros p st1 st2. unfold st2, st1, InitLogger.
  rewrite !InitLogger_state. unfold GetLogWirter. simpl.
  assert (length (loggers st ++ [lumberJackLogger opt1]) = S p) as Hlen.
  { rewrite length_app. simpl. unfold p. lia. }
  rewrite Hlen. split_and!; try done.
  - rewrite lookup_app_l by (rewrite Hlen; unfold p; lia).
    by rewrite list_lookup_middle.
  - by rewrite list_lookup_middle.
  - rewrite length_app, Hlen. simpl. lia.
  - eexists. split; [done|]. simpl. unfold treeCore.
    destruct (NotStdout opt2), (String.eqb (Filename opt2) ""); simpl;
      rewrite ?not_elem_of_cons; split_and?; try apply not_elem_of_nil;
      try discriminate; intros [=]; lia.
Qed.

(** The two writer variables after the package is loaded. *)
Lemma latest_writer_run cs st st' :
  run cs st = Some st' ->
  (stdWirtor st = Some Stdout
   /\ exists n, length (loggers st) = S n /\ fileWirtor st = Some (Lumberjack n)) ->
  stdWirtor st' = Some Stdout
  /\ exists n, length (loggers st') = S n /\ fileWirtor st' = Some (Lumberjack n).
Proof.
  revert st. induction cs as [|c cs IH]; intros st; simpl.
  - by intros [= <-].
  - destruct (exec c st) as [st1|] eqn:E; simpl; [|discriminate].
    intros Hrun (Hs & n & Hn & Hf). apply (IH _ Hrun).
    destruct (builds c) eqn:Eb.
    + destruct c; try discriminate. simpl in E. injection E as <-.
      unfold InitLogger. rewrite InitLogger_state. simpl. split.
      * rewrite Hs. by destruct (_ && _).
      * exists (length (loggers st)). split; [|done].
        rewrite length_app. simpl. lia.
    + destruct (exec_frame _ _ _ E Eb) as [es ->]. simpl. eauto.
Qed.

(** X7: once the package is loaded, whatever is called and whatever options
    later [InitLogger] calls are given, no call fails, the standard-output
    writer variable stays set and the file writer variable points to the
    lumberjack logger made last; so [Pure] always writes twice, first to
    that logger and then to standard output. *)
Theorem Pure_targets_after_load (cs : list Call) (args : list Arg) :
  exists st n,
    run cs loaded = Some st
    /\ length (loggers st) = S n
    /\ fileWirtor st = Some (Lumberjack n)
    /\ stdWirtor st = Some Stdout
    /\ added st (Pure args st)
       = [Write (Lumberjack n) (Sprintln args); Write Stdout (Sprintln args)].
Proof.
  destruct (ready_run cs loaded) as (st & Hrun & _).
  { apply ready_InitLogger. }
  destruct (latest_writer_run cs loaded st Hrun) as (Hs & n & Hn & Hf).
  { split; [done|]. by exists 0%nat. }
  exists st, n. split_and!; try done.
  rewrite Pure_trace, added_emit_all. unfold pure_writers.
  by rewrite Hf, Hs.
Qed.

(** X8: over any sequence of calls, the lumberjack loggers made so far are
    never dropped or replaced, and their number grows by one for each
    [InitLogger] call and by nothing else. *)
Theorem one_lumberjack_per_InitLogger (cs : list Call) (st st' : State) :
  run cs st = Some st' ->
  loggers st `prefix_of` loggers st'
  /\ length (loggers st')
     = (length (loggers st) + length (filter (fun c => builds c = true) cs))%nat.
Proof.
  revert st. induction cs as [|c cs IH]; intros st; simpl.
  - intros [= <-]. split; [done|]. simpl. lia.
  - destruct (exec c st) as [st1|] eqn:E; simpl; [|discriminate].
    intros Hrun. destruct (IH _ Hrun) as [Hpre Hlen].
    destruct (builds c) eqn:Eb.
    + rewrite filter_cons_True by done.
      destruct c; try discriminate. simpl in E. injection E as <-.
      unfold InitLogger in *. rewrite InitLogger_state in Hpre, Hlen.
      simpl in Hpre, Hlen. rewrite length_app in Hlen. simpl in *. split.
      * etrans; [|exact Hpre]. by apply prefix_app_r.
      * lia.
    + rewrite filter_cons_False by (rewrite Eb; discriminate).
      destruct (exec_frame _ _ _ E Eb) as [es ->]. done.
Qed.


Lemma level_of_le_Fatal s : level_of s <= FatalLevel.
Proof.
  destruct s; unfold level_of, DebugLevel, InfoLevel, WarnLevel, ErrorLevel,
    DPanicLevel, PanicLevel, FatalLevel; lia.
Qed.

(** X10: [Pure] and [Puref] are not filtered by level: with a minimum level
    above FatalLevel none of the 21 emission functions adds anything to the
    trace, while [Pure] and [Puref] still write to the lumberjack writer of
    the pipeline. *)
Theorem Pure_not_filtered_by_level (opt : Options) (hooks : list Hook)
    (st : State) (args : list Arg) (msg : string) (fargs : list Arg) :
  FatalLevel < OptLevel opt ->
  (forall s f site,
     exists st',
       emission s f site (InitLogger opt hooks st) = Some st'
       /\ added (InitLogger opt hooks st) st' = [])
  /\ Write (Lumberjack (length (loggers st))) (Sprintln args)
       ∈ added (InitLogger opt hooks st) (Pure args (InitLogger opt hooks st))
  /\ Write (Lumberjack (length (loggers st))) (Sprintf msg fargs +:+ newline)
       ∈ added (InitLogger opt hooks st)
           (Puref msg fargs (InitLogger opt hooks st)).
Proof.
  intros Hlvl. split_and!.
  - intros s f site. rewrite emission_log. unfold InitLogger.
    eexists. split; [apply log_after_InitLogger|].
    rewrite added_emit_all. unfold zapcore.Enabled.
    pose proof (level_of_le_Fatal s).
    destruct (Z.leb_spec (OptLevel opt) (level_of s)); [lia|done].
  - rewrite Pure_trace, added_emit_all. unfold InitLogger, pure_writers.
    rewrite InitLogger_state. simpl. apply elem_of_cons. by left.
  - rewrite Puref_trace, added_emit_all. unfold InitLogger, pure_writers.
    rewrite InitLogger_state. simpl. apply elem_of_cons. by left.
Qed.

(** ** Which hooks can be called between two [InitLogger] calls *)

Lemma pipeline_InitLogger sem opt hooks st :
  pipeline (InitLogger_with sem opt hooks st) (OptLevel opt)
    (writers (treeCore opt (Lumberjack (length (loggers st)))))
    (called sem hooks).
Proof.
  rewrite InitLogger_state.
  exists (treeCore opt (Lumberjack (length (loggers st)))),
    (hooksHandler_with sem hooks (vars st)).1.
  simpl. split_and!.
  - done.
  - intros ent. apply Check_treeCore.
  - apply writers_treeCore_nonempty.
  - apply hooksHandler_resolved.
Qed.

Lemma pipeline_emit_all es st m ws hs :
  pipeline st m ws hs -> pipeline (emit_all es st) m ws hs.
Proof. intros (tree & funcs & Hl & Hc & Hws & Hr). by exists tree, funcs. Qed.

Lemma exec_hooks c st st' m ws hs :
  pipeline st m ws hs ->
  builds c = false ->
  exec c st = Some st' ->
  exists es, st' = emit_all es st /\ Forall (fun h => h ∈ hs) (hooks_of es).
Proof.
  intros (tree & funcs & Hl & Hc & Hws & Hr) Hb.
  destruct c; simpl; try discriminate.
  - destruct (GetLogWirter st); simpl; [|discriminate].
    intros [= <-]. exists []. split; [by rewrite emit_all_nil|constructor].
  - rewrite emission_log.
    rewrite (log_through tree funcs hs m ws) by done.
    intros [= <-]. eexists. split; [done|].
    destruct (zapcore.Enabled m (level_of s)); [|constructor].
    rewrite hooks_of_app, hooks_of_writes, hooks_of_calls. simpl.
    by apply Forall_forall.
  - intros [= <-]. eexists. split; [apply Pure_trace|].
    rewrite hooks_of_writes. constructor.
  - intros [= <-]. eexists. split; [apply Puref_trace|].
    rewrite hooks_of_writes. constructor.
Qed.

Lemma run_hooks cs st st' m ws hs :
  Forall (fun c => builds c = false) cs ->
  pipeline st m ws hs ->
  run cs st = Some st' ->
  exists es, st' = emit_all es st /\ Forall (fun h => h ∈ hs) (hooks_of es).
Proof.
  intros Hall. revert st.
  induction Hall as [|c cs Hc Hall IH]; intros st Hp; simpl.
  - intros [= <-]. exists []. split; [by rewrite emit_all_nil|constructor].
  - destruct (exec c st) as [st1|] eqn:E; simpl; [|discriminate].
    destruct (exec_hooks _ _ _ _ _ _ Hp Hc E) as (es1 & -> & H1).
    intros Hrun.
    destruct (IH _ (pipeline_emit_all es1 _ _ _ _ Hp) Hrun) as (es & -> & H2).
    exists (es1 ++ es). split; [by rewrite emit_all_app|].
    rewrite hooks_of_app. by apply Forall_app.
Qed.

(** X11: from an [InitLogger] call until the next one, whatever else is
    called, every hook call goes to the hook registered last in that
    [InitLogger] call: no hook of an earlier [InitLogger], and none at all
    when no hook was given. *)
Theorem only_last_hook_called (opt : Options) (hooks : list Hook)
    (st : State) (cs : list Call) (st' : State) :
  Forall (fun c => builds c = false) cs ->
  run cs (InitLogger opt hooks st) = Some st' ->
  Forall (fun h => last hooks = Some h)
    (hooks_of (added (InitLogger opt hooks st) st')).
Proof.
  intros Hall Hrun.
  destruct (run_hooks cs _ st' _ _ _ Hall
              (pipeline_InitLogger (loopvar_of_go go_minor) opt hooks st) Hrun)
    as (es & -> & Hes).
  rewrite added_emit_all.
  eapply Forall_impl; [exact Hes|]. intros h.
  change (loopvar_of_go go_minor) with PerLoop. simpl.
  destruct (last hooks) as [h0|].
  - intros Hin. apply elem_of_replicate_inv in Hin. by subst.
  - intros Hin. by apply elem_of_nil in Hin.
Qed.

End Package.

(** ** The package run on the inputs of its test *)

(** [TestInitLogger]: [InitLogger] with a file name and standard output,
    then [Pure("11", 22, "33")] and [Puref("%s:%d", "hhh", 333)]. *)
Example TestInitLogger_trace :
  trace
    (Puref Sample.Sprintf "%s:%d" [Sample.AString "hhh"; Sample.AInt 333]
       (Pure Sample.fmt_v
          [Sample.AString "11"; Sample.AInt 22; Sample.AString "33"]
          (InitLogger Sample.test_options [] (loaded (Hook := Sample.Hook)))))
  = [Write (Lumberjack 1) ("11 22 33" +:+ newline);
     Write Stdout ("11 22 33" +:+ newline);
     Write (Lumberjack 1) ("hhh:333" +:+ newline);
     Write Stdout ("hhh:333" +:+ newline)].
Proof. reflexivity. Qed.

(** The README's two-hook set-up: both calls go to the hook registered
    last. *)
Example two_hooks_trace :
  (st ← Debug Sample.Sprint Sample.encode [Sample.AString "debug"] Sample.here
          (InitLogger Sample.test_options ["logInfoHook"; "pushToES"] loaded);
   Some (hooks_of (trace st)))
  = Some ["pushToES"; "pushToES"].
Proof. reflexivity. Qed.

(** Before [init], [GetLogWirter] returns the error and no writer. *)
Example GetLogWirter_before_init :
  exists e,
    GetLogWirter (zeroState (Hook := Sample.Hook)) = Some (None, Some e).
Proof. eexists. reflexivity. Qed.

(** A run of [GetLogWirter_error_iff_unbuilt]: [GetLogWirter] before
    anything is built, then [InitLogger], then [Pure]. *)
Lemma GetLogWirter_error_iff_unbuilt_run :
  let cs :=
    [CallGetLogWirter;
     CallInitLogger Sample.test_options ["logInfoHook"];
     CallPure [Sample.AString "11"; Sample.AInt 22; Sample.AString "33"]] in
  exists st : State,
    run Sample.fmt_v Sample.Sprint Sample.Sprintf Sample.encode cs
      (zeroState (Hook := Sample.Hook)) = Some st
    /\ exec Sample.fmt_v Sample.Sprint Sample.Sprintf Sample.encode
         CallGetLogWirter st = Some st
    /\ exists w e,
         GetLogWirter st = Some (w, e)
         /\ (e <> None <-> logger st = None)
         /\ (logger st = None <-> Forall (fun c => builds c = false) cs)
         /\ (logger st <> None -> is_Some w /\ e = None).
Proof.
  intros cs. eexists. split; [reflexivity|].
  apply (GetLogWirter_error_iff_unbuilt Sample.fmt_v Sample.Sprint
           Sample.Sprintf Sample.encode cs).
  reflexivity.
Defined.

(** A run of [GetLogWirter_returns_file_writer]: the options of [init]
    (standard output only), followed by [Pure], an Info entry and
    [GetLogWirter]. *)
Lemma GetLogWirter_returns_file_writer_run :
  let opt :=
    {| NotStdout := false; OptLevel := DebugLevel; Filename := "";
       MaxSize := 0; MaxBackups := 0; MaxAge := 0; Compress := false |} in
  let cs :=
    [CallPure [Sample.AString "raw"];
     CallEmission SInfo (Plain [Sample.AString "started"]) Sample.here;
     CallGetLogWirter] in
  Forall (fun c => builds c = false) cs
  /\ exists st' : State,
       run Sample.fmt_v Sample.Sprint Sample.Sprintf Sample.encode cs
         (InitLogger opt [] (zeroState (Hook := Sample.Hook))) = Some st'
       /\ GetLogWirter st' = Some (Some (Lumberjack 0), None)
       /\ loggers st' !! 0%nat = Some (lumberJackLogger opt)
       /\ Lumberjack 0 <> Stdout
       /\ (Filename opt = "" -> NotStdout opt = false ->
             fmap (fun l => writers (zap.core l)) (logger st') = Some [Stdout]
             /\ lumberjack.Filename (lumberJackLogger opt) = "").
Proof.
  intros opt cs.
  assert (Forall (fun c => builds c = false) cs) as Hcs
    by (repeat constructor).
  split; [exact Hcs|]. eexists. split; [reflexivity|].
  apply (GetLogWirter_returns_file_writer Sample.fmt_v Sample.Sprint
           Sample.Sprintf Sample.encode opt [] zeroState cs);
    [exact Hcs|reflexivity].
Defined.

(** A run of [sinks_follow_options] on the options of [TestInitLogger]. *)
Lemma sinks_follow_options_run :
  ~ (NotStdout Sample.test_options = true /\ Filename Sample.test_options = "")
  /\ exists l,
       logger (InitLogger Sample.test_options ["logInfoHook"]
                 (zeroState (Hook := Sample.Hook))) = Some l
       /\ (Stdout ∈ writers (zap.core l)
            <-> NotStdout Sample.test_options = false)
       /\ (Lumberjack 0 ∈ writers (zap.core l)
            <-> Filename Sample.test_options <> "")
       /\ (forall w, w ∈ writers (zap.core l) -> w = Stdout \/ w = Lumberjack 0)
       /\ NoDup (writers (zap.core l)).
Proof.
  assert (~ (NotStdout Sample.test_options = true
             /\ Filename Sample.test_options = "")) as H
    by (intros [H _]; discriminate).
  split; [exact H|].
  exact (sinks_follow_options Sample.test_options ["logInfoHook"] zeroState H).
Defined.

(** A run of [hooks_as_registered_iff_all_same]: the README's single hook
    and an Info entry. *)
Lemma hooks_as_registered_iff_all_same_run :
  OptLevel Sample.test_options <= InfoLevel
  /\ exists st' : State,
       log Sample.encode InfoLevel "started" [] Sample.here
         (InitLogger Sample.test_options ["logInfoHook"]
            (loaded (Hook := Sample.Hook))) = Some st'
       /\ (hooks_of
             (added (InitLogger Sample.test_options ["logInfoHook"] loaded) st')
           = ["logInfoHook"]
           <-> forall h, last ["logInfoHook"] = Some h
                         -> Forall (eq h) ["logInfoHook"]).
Proof.
  assert (OptLevel Sample.test_options <= InfoLevel) as H
    by (unfold Sample.test_options, InfoLevel, DebugLevel; simpl; lia).
  split; [exact H|].
  exact (hooks_as_registered_iff_all_same Sample.encode Sample.test_options
           ["logInfoHook"] loaded InfoLevel "started" [] Sample.here H).
Defined.

(** A run of [one_lumberjack_per_InitLogger]: two [InitLogger] calls with
    the same options after the package is loaded. *)
Lemma one_lumberjack_per_InitLogger_run :
  let cs :=
    [CallInitLogger Sample.test_options [];
     CallPure [Sample.AString "raw"];
     CallInitLogger Sample.test_options []] in
  exists st' : State,
    run Sample.fmt_v Sample.Sprint Sample.Sprintf Sample.encode cs
      (loaded (Hook := Sample.Hook)) = Some st'
    /\ loggers (loaded (Hook := Sample.Hook)) `prefix_of` loggers st'
    /\ length (loggers st')
       = (length (loggers (loaded (Hook := Sample.Hook)))
          + length (filter (fun c => builds c = true) cs))%nat.
Proof.
  intros cs. eexists. split; [reflexivity|].
  apply (one_lumberjack_per_InitLogger Sample.fmt_v Sample.Sprint
           Sample.Sprintf Sample.encode cs).
  reflexivity.
Defined.

(** A run of [Pure_not_filtered_by_level]: a minimum level one above
    FatalLevel. *)
Lemma Pure_not_filtered_by_level_run :
  let opt :=
    {| NotStdout := false; OptLevel := FatalLevel + 1; Filename := "./log.log";
       MaxSize := 10; MaxBackups := 10; MaxAge := 2; Compress := false |} in
  let st1 := InitLogger opt [] (loaded (Hook := Sample.Hook)) in
  FatalLevel < OptLevel opt
  /\ (forall s f site,
        exists st',
          emission Sample.Sprint Sample.Sprintf Sample.encode s f site st1
          = Some st'
          /\ added st1 st' = [])
  /\ Write (Lumberjack 1) (Sprintln Sample.fmt_v [Sample.AString "raw"])
       ∈ added st1 (Pure Sample.fmt_v [Sample.AString "raw"] st1)
  /\ Write (Lumberjack 1)
        (Sample.Sprintf "%d rows" [Sample.AInt 3] +:+ newline)
       ∈ added st1 (Puref Sample.Sprintf "%d rows" [Sample.AInt 3] st1).
Proof.
  intros opt st1.
  assert (FatalLevel < OptLevel opt) as H
    by (unfold opt, FatalLevel; simpl; lia).
  split; [exact H|].
  exact (Pure_not_filtered_by_level Sample.fmt_v Sample.Sprint Sample.Sprintf
           Sample.encode opt [] (loaded (Hook := Sample.Hook))
           [Sample.AString "raw"] "%d rows" [Sample.AInt 3] H).
Defined.

(** A run of [only_last_hook_called]: two hooks, then an Info entry, a
    [Pure] call and a [Warnf] entry. *)
Lemma only_last_hook_called_run :
  let hooks := ["logInfoHook"; "pushToES"] in
  let cs :=
    [CallEmission SInfo (Plain [Sample.AString "started"]) Sample.here;
     CallPure [Sample.AString "raw"];
     CallEmission SWarn (Templated "%d left" [Sample.AInt 2]) Sample.here] in
  Forall (fun c => builds c = false) cs
  /\ exists st' : State,
       run Sample.fmt_v Sample.Sprint Sample.Sprintf Sample.encode cs
         (InitLogger Sample.test_options hooks (loaded (Hook := Sample.Hook)))
       = Some st'
       /\ Forall (fun h => last hooks = Some h)
            (hooks_of (added (InitLogger Sample.test_options hooks loaded) st')).
Proof.
  intros hooks cs.
  assert (Forall (fun c => builds c = false) cs) as Hcs
    by (repeat constructor).
  split; [exact Hcs|]. eexists. split; [vm_compute; reflexivity|].
  apply (only_last_hook_called Sample.fmt_v Sample.Sprint Sample.Sprintf
           Sample.encode Sample.test_options hooks
           (loaded (Hook := Sample.Hook)) cs);
    [exact Hcs|vm_compute; reflexivity].
Defined.
